(** * GPJax kernels: the base kernel algebra of [gpjax/kernels/base.py]

    A shallow embedding of the active-dims normaliser [_check_active_dims],
    of the kernel classes [AbstractKernel], [Constant] and
    [CombinationKernel], of the two factories [SumKernel] and
    [ProductKernel] and of the operator overloads [__add__], [__radd__]
    and [__mul__], followed by the properties of the specification.

    Conventions.
    - Python exceptions are values: a computation returns [Ok v] or
      [Raise e].
    - Floating-point numbers are idealised as exact rationals ([Q]);
      numeric agreement is stated up to [Qeq].  No property below compares
      two orders of one reduction, which rounding would tell apart.
    - A JAX array is its shape together with its row-major data. *)

From Stdlib Require Import List ZArith QArith String Lia.
Import ListNotations.

Set Warnings "-register-all".

Local Open Scope string_scope.
Local Open Scope list_scope.
Local Open Scope Z_scope.

(** ** Exceptions and fallible computations *)

Inductive Exception : Type :=
| TypeError (msg : string)
| ValueError (msg : string)
| IndexError
| ZeroDivisionError.

Inductive result (A : Type) : Type :=
| Ok (value : A)
| Raise (exc : Exception).

Arguments Ok {A} value.
Arguments Raise {A} exc.

Definition bind {A B : Type} (r : result A) (f : A -> result B) : result B :=
  match r with
  | Ok a => f a
  | Raise e => Raise e
  end.

Notation "x <- r ;; k" := (bind r (fun x => k))
  (at level 61, r at next level, right associativity).

Notation "' pat <- r ;; k" :=
  (bind r (fun x => match x with pat => k end))
  (at level 61, pat pattern, r at next level, right associativity).

(** A list comprehension [[f e for e in l]]: elements are evaluated left
    to right and the first exception escapes. *)
Fixpoint comprehension {A B : Type} (f : A -> result B) (l : list A)
  : result (list B) :=
  match l with
  | [] => Ok []
  | e :: rest =>
      v <- f e ;;
      vs <- comprehension f rest ;;
      Ok (v :: vs)
  end.

(** ** Arrays *)

Record Array : Type := mkArray { shape : list nat; data : list Q }.

(** [jnp.array(v)] for a Python float [v]: a rank-0 array. *)
Definition jnp_array (v : Q) : Array := mkArray [] [v].

Definition prod_shape (s : list nat) : nat := fold_right Nat.mul 1%nat s.

Definition well_shaped (a : Array) : Prop :=
  List.length (data a) = prod_shape (shape a).

(** [a.squeeze()]: every axis of length one is removed. *)
Definition squeeze (a : Array) : Array :=
  mkArray (filter (fun d => negb (Nat.eqb d 1)) (shape a)) (data a).

Definition shape_eqb (s t : list nat) : bool :=
  if list_eq_dec Nat.eq_dec s t then true else false.

(** [jnp.stack(arrays)] along a new leading axis. *)
Definition jnp_stack (arrays : list Array) : result Array :=
  match arrays with
  | [] => Raise (ValueError "Need at least one array to stack.")
  | a :: rest =>
      if forallb (fun b => shape_eqb (shape b) (shape a)) rest
      then Ok (mkArray (List.length arrays :: shape a)
                       (List.concat (map data arrays)))
      else Raise (ValueError "All input arrays must have the same shape.")
  end.

Definition Qsum (l : list Q) : Q := fold_left Qplus l 0%Q.
Definition Qprod (l : list Q) : Q := fold_left Qmult l 1%Q.

(** [jnp.sum] and [jnp.prod] with no axis: reduce over every element. *)
Definition jnp_sum (a : Array) : Array := jnp_array (Qsum (data a)).
Definition jnp_prod (a : Array) : Array := jnp_array (Qprod (data a)).

(** Numeric agreement of two arrays. *)
Definition array_equiv (a b : Array) : Prop :=
  shape a = shape b /\ Forall2 Qeq (data a) (data b).

(** ** Python values that are not kernels *)

Inductive PyVal : Type :=
| VNone
| VInt (n : Z)
| VFloat (v : Q)
| VStr (s : string)
| VList (items : list Z)
| VSlice (start stop step : option Z)
| VArray (a : Array).

(** ** Kernels *)

(** The reduction bound by a factory. *)
Inductive Operator : Type := op_jnp_sum | op_jnp_prod.

Definition apply_operator (op : Operator) (a : Array) : Array :=
  match op with
  | op_jnp_sum => jnp_sum a
  | op_jnp_prod => jnp_prod a
  end.

(** The dataclass fields of [AbstractKernel].  [n_dims] is declared with
    [init=False] and no default: it is [None] here until some
    [__post_init__] assigns it.  The compute engine plays no part in what
    follows and is left out. *)
Record Attrs : Type := mkAttrs {
  n_dims : option Z;
  active_dims : PyVal;
  name : string
}.

(** A kernel object: an instance of [Constant], of [CombinationKernel], or
    of some other concrete subclass of [AbstractKernel] that brings its own
    [__call__] and returns a scalar.  The [constant] slot of a [Constant]
    holds a JAX array, as its default [jnp.array(0.0)] is. *)
Inductive Kernel : Type :=
| KConstant (attrs : Attrs) (constant : Array)
| KCombination (attrs : Attrs) (kernels : list Kernel) (operator : Operator)
| KOther (attrs : Attrs) (call : Array -> Array -> Q).

Inductive PyObj : Type :=
| Val (v : PyVal)
| KernelObj (k : Kernel).

Inductive KernelClass : Type :=
| ConstantClass
| CombinationKernelClass
| OtherKernelClass.

(** [SumKernel] and [ProductKernel] are [functools.partial] objects over the
    one class [CombinationKernel]: both build instances of that class. *)
Definition class_of (k : Kernel) : KernelClass :=
  match k with
  | KConstant _ _ => ConstantClass
  | KCombination _ _ _ => CombinationKernelClass
  | KOther _ _ => OtherKernelClass
  end.

Definition class_eqb (c d : KernelClass) : bool :=
  match c, d with
  | ConstantClass, ConstantClass => true
  | CombinationKernelClass, CombinationKernelClass => true
  | OtherKernelClass, OtherKernelClass => true
  | _, _ => false
  end.

(** [isinstance(kernel, cls)] for a kernel object; no class here has a
    subclass. *)
Definition isinstance (k : Kernel) (cls : KernelClass) : bool :=
  class_eqb (class_of k) cls.

Definition attrs_of (k : Kernel) : Attrs :=
  match k with
  | KConstant a _ => a
  | KCombination a _ _ => a
  | KOther a _ => a
  end.

Definition kernels_of (k : Kernel) : list Kernel :=
  match k with
  | KCombination _ ks _ => ks
  | _ => []
  end.

(** ** The active-dims normaliser *)

Definition sub_operand_error (l r : option Z) : Exception :=
  TypeError
    match l, r with
    | Some _, None =>
        "unsupported operand type(s) for -: 'int' and 'NoneType'"
    | None, Some _ =>
        "unsupported operand type(s) for -: 'NoneType' and 'int'"
    | _, _ =>
        "unsupported operand type(s) for -: 'NoneType' and 'NoneType'"
    end.

(** [l - r] on slice bounds, each an integer or [None]. *)
Definition py_sub (l r : option Z) : result Z :=
  match l, r with
  | Some a, Some b => Ok (a - b)
  | _, _ => Raise (sub_operand_error l r)
  end.

(** [a // b] on integers: floor division, which is [Z.div]. *)
Definition py_floordiv (a b : Z) : result Z :=
  if b =? 0
  then Raise ZeroDivisionError
  else Ok (a / b).

Definition _check_active_dims (active_dims : PyVal) : result (Z * PyVal) :=
  match active_dims with
  | VList a => Ok (Z.of_nat (List.length a), active_dims)
  | VInt a => Ok (a, VSlice None None None)
  | VSlice start stop step =>
      let step := match step with Some s => s | None => 1 end in
      d <- py_sub stop start ;;
      n <- py_floordiv d step ;;
      Ok (n, active_dims)
  | _ => Raise (ValueError "active_dims must be a list, int or slice.")
  end.

(** ** Indexing the trailing axis: [x[..., index]] *)

(** [slice(start, stop, step).indices(length)], as CPython adjusts the
    bounds of a slice to an axis of the given length. *)
Definition adjust_bound (length lower upper : Z) (bound : option Z)
    (default : Z) : Z :=
  match bound with
  | None => default
  | Some b =>
      if b <? 0 then Z.max (b + length) lower else Z.min b upper
  end.

Definition slice_indices (length : Z) (start stop step : option Z)
  : result (Z * Z * Z) :=
  let step := match step with Some s => s | None => 1 end in
  if step =? 0 then Raise (ValueError "slice step cannot be zero")
  else
    let lower := if step <? 0 then -1 else 0 in
    let upper := if step <? 0 then length - 1 else length in
    let start :=
      adjust_bound length lower upper start (if step <? 0 then upper else lower) in
    let stop :=
      adjust_bound length lower upper stop (if step <? 0 then lower else upper) in
    Ok (start, stop, step).

(** [len(range(start, stop, step))] for a non-zero step. *)
Definition range_length (start stop step : Z) : Z :=
  if 0 <? step
  then (if start <? stop then (stop - start - 1) / step + 1 else 0)
  else (if stop <? start then (start - stop - 1) / (- step) + 1 else 0).

Definition py_range (start stop step : Z) : list Z :=
  map (fun i => start + Z.of_nat i * step)
      (seq 0 (Z.to_nat (range_length start stop step))).

(** The columns a slice selects on an axis of length [D]. *)
Definition slice_columns (D : nat) (start stop step : option Z)
  : result (list Z) :=
  '(a, b, s) <- slice_indices (Z.of_nat D) start stop step ;;
  Ok (py_range a b s).

(** An integer index on an axis of length [D]: a negative index counts from
    the end, and JAX clamps what is still out of bounds. *)
Definition clamp_index (D : nat) (i : Z) : Z :=
  let i := if i <? 0 then i + Z.of_nat D else i in
  Z.max 0 (Z.min i (Z.of_nat D - 1)).

Definition take_columns (cols : list Z) (row : list Q) : list Q :=
  map (fun c => nth (Z.to_nat c) row 0%Q) cols.

(** The data of an array seen as [n] rows of [D] columns. *)
Fixpoint rows_of (n D : nat) (l : list Q) : list (list Q) :=
  match n with
  | O => []
  | S n' => firstn D l :: rows_of n' D (skipn D l)
  end.

Definition getitem_last (x : Array) (index : PyVal) : result Array :=
  match rev (shape x) with
  | [] => Raise IndexError
  | D :: leading =>
      let leading := rev leading in
      let rows := rows_of (prod_shape leading) D (data x) in
      let gather cols := List.concat (map (take_columns cols) rows) in
      match index with
      | VSlice start stop step =>
          cols <- slice_columns D start stop step ;;
          Ok (mkArray (leading ++ [List.length cols]) (gather cols))
      | VList items =>
          match D, items with
          | O, _ :: _ => Raise IndexError
          | _, _ =>
              Ok (mkArray (leading ++ [List.length items])
                          (gather (map (clamp_index D) items)))
          end
      | VInt i =>
          match D with
          | O => Raise IndexError
          | _ => Ok (mkArray leading (gather [clamp_index D i]))
          end
      | _ =>
          (* no constructed kernel holds such a selector *)
          Raise IndexError
      end
  end.

(** ** Construction *)

Definition default_active_dims : PyVal := VInt 1.
Definition default_name : string := "AbstractKernel".
Definition default_constant : Array := jnp_array 0.

(** [AbstractKernel.__post_init__], run by the generated [__init__] of every
    subclass that does not override it. *)
Definition AbstractKernel__post_init__ (active_dims : PyVal) : result Attrs :=
  '(n, canonical) <- _check_active_dims active_dims ;;
  Ok (mkAttrs (Some n) canonical default_name).

(** The generated [Constant.__init__]: [n_dims] is not an init argument, so
    the first positional argument is [active_dims]; [constant] is the last
    field and defaults to [jnp.array(0.0)]. *)
Definition Constant (active_dims : PyVal) (constant : Array) : result Kernel :=
  attrs <- AbstractKernel__post_init__ active_dims ;;
  Ok (KConstant attrs constant).

(** Any other concrete kernel class, with its own [__call__]. *)
Definition OtherKernel (active_dims : PyVal) (call : Array -> Array -> Q)
  : result Kernel :=
  attrs <- AbstractKernel__post_init__ active_dims ;;
  Ok (KOther attrs call).

(** The loop of [CombinationKernel.__post_init__]; [kernels_list] is the
    list built so far. *)
Fixpoint flatten_loop (self_class : KernelClass) (kernels : list PyObj)
    (kernels_list : list Kernel) : result (list Kernel) :=
  match kernels with
  | [] => Ok kernels_list
  | Val _ :: _ => Raise (TypeError "can only combine Kernel instances")
  | KernelObj kernel :: rest =>
      if isinstance kernel self_class
      then flatten_loop self_class rest (kernels_list ++ kernels_of kernel)
      else flatten_loop self_class rest (kernels_list ++ [kernel])
  end.

Definition CombinationKernel__post_init__ (self_class : KernelClass)
    (kernels : list PyObj) : result (list Kernel) :=
  flatten_loop self_class kernels [].

(** The generated [CombinationKernel.__init__] called with [kernels] and
    [operator]: [active_dims] keeps its default, and the overriding
    [__post_init__] neither normalises it nor assigns [n_dims]. *)
Definition CombinationKernel (kernels : list PyObj) (operator : Operator)
  : result Kernel :=
  kernels_list <- CombinationKernel__post_init__ CombinationKernelClass kernels ;;
  Ok (KCombination (mkAttrs None default_active_dims default_name)
                   kernels_list operator).

Definition SumKernel (kernels : list PyObj) : result Kernel :=
  CombinationKernel kernels op_jnp_sum.

Definition ProductKernel (kernels : list PyObj) : result Kernel :=
  CombinationKernel kernels op_jnp_prod.

(** ** Methods *)

Definition slice_input (self : Kernel) (x : Array) : result Array :=
  match active_dims (attrs_of self) with
  | VNone => Ok x
  | index => getitem_last x index
  end.

(** [__call__], dispatched on the class of [self].  For a combination the
    inner loop is the comprehension [[k(x, y) for k in self.kernels]]. *)
Fixpoint __call__ (self : Kernel) (x y : Array) : result Array :=
  match self with
  | KConstant _ constant => Ok (squeeze constant)
  | KOther _ call => Ok (jnp_array (call x y))
  | KCombination _ kernels operator =>
      results <-
        (fix each (ks : list Kernel) : result (list Array) :=
           match ks with
           | [] => Ok []
           | k :: rest =>
               v <- __call__ k x y ;;
               vs <- each rest ;;
               Ok (v :: vs)
           end) kernels ;;
      stacked <- jnp_stack results ;;
      Ok (apply_operator operator stacked)
  end.

Definition __add__ (self : Kernel) (other : PyObj) : result Kernel :=
  match other with
  | KernelObj _ => SumKernel [KernelObj self; other]
  | Val v =>
      c <- Constant v default_constant ;;
      SumKernel [KernelObj self; KernelObj c]
  end.

Definition __radd__ (self : Kernel) (other : PyObj) : result Kernel :=
  __add__ self other.

Definition __mul__ (self : Kernel) (other : PyObj) : result Kernel :=
  match other with
  | KernelObj _ => ProductKernel [KernelObj self; other]
  | Val v =>
      c <- Constant v default_constant ;;
      ProductKernel [KernelObj self; KernelObj c]
  end.


(** ** Constructible kernels *)

(** The kernel objects the constructors can produce: constants and other
    concrete kernels built from any selector the normaliser accepts, and
    combinations built from operands that are themselves constructible. *)
Inductive constructible : Kernel -> Prop :=
| constructible_Constant : forall active_dims constant k,
    Constant active_dims constant = Ok k ->
    constructible k
| constructible_Other : forall active_dims call k,
    OtherKernel active_dims call = Ok k ->
    constructible k
| constructible_Combination : forall kernels operator k,
    (forall operand, In (KernelObj operand) kernels -> constructible operand) ->
    CombinationKernel kernels operator = Ok k ->
    constructible k.

(** What one kernel operand contributes to the children of a combination
    of class [self_class]. *)
Definition contribution (self_class : KernelClass) (kernel : Kernel)
  : list Kernel :=
  if isinstance kernel self_class then kernels_of kernel else [kernel].

(** [child] is a combination bound to the same reduction as the
    combination [parent]. *)
Definition nested_same_kind (parent child : Kernel) : Prop :=
  match parent, child with
  | KCombination _ _ outer, KCombination _ _ inner => inner = outer
  | _, _ => False
  end.

(** No child of [k] is an instance of [CombinationKernel]. *)
Definition children_are_leaves (k : Kernel) : Prop :=
  forall child, In child (kernels_of k) ->
                isinstance child CombinationKernelClass = false.

(** Sample kernels. *)
Definition unit_attrs : Attrs :=
  mkAttrs (Some 1) (VSlice None None None) default_name.

Definition constant_kernel (v : Q) : Kernel :=
  KConstant unit_attrs (jnp_array v).

Definition combination_attrs : Attrs :=
  mkAttrs None default_active_dims default_name.

Definition origin : Array := mkArray [1%nat] [0%Q].

Definition three_columns : Array := mkArray [3%nat] [10; 20; 30]%Q.

(** [Constant(constant=2.0) * Constant(constant=5.0)]. *)
Definition product_2_5 : Kernel :=
  KCombination combination_attrs [constant_kernel 2; constant_kernel 5]
               op_jnp_prod.

(** The value a reduction gives on a list of numbers. *)
Definition reduce (operator : Operator) (values : list Q) : Q :=
  match operator with
  | op_jnp_sum => Qsum values
  | op_jnp_prod => Qprod values
  end.

(** A selector in the form the normaliser hands back: a list or a slice. *)
Definition canonical_selector (sel : PyVal) : Prop :=
  match sel with
  | VList _ | VSlice _ _ _ => True
  | _ => False
  end.

(** A selector of one of the three accepted types. *)
Definition selector_type (sel : PyVal) : Prop :=
  match sel with
  | VList _ | VInt _ | VSlice _ _ _ => True
  | _ => False
  end.

Definition is_leaf (k : Kernel) : Prop :=
  isinstance k CombinationKernelClass = false.

(** A constant whose slot holds a vector of three entries. *)
Definition vector_constant : Kernel :=
  KConstant unit_attrs (mkArray [3%nat] [1; 2; 3]%Q).

(** * Properties *)

(** ** Fallible computations *)

Lemma bind_Ok_inv {A B : Type} (r : result A) (f : A -> result B) (b : B) :
  bind r f = Ok b -> exists a, r = Ok a /\ f a = Ok b.
Proof.
  destruct r as [a|e]; simpl; intros H.
  - exists a. split; [reflexivity | exact H].
  - discriminate H.
Qed.

Lemma comprehension_total {A B : Type} (f : A -> result B) (g : A -> B)
    (l : list A) :
  (forall e, In e l -> f e = Ok (g e)) ->
  comprehension f l = Ok (map g l).
Proof.
  induction l as [|e l IH]; simpl; intros H; [reflexivity|].
  rewrite (H e (or_introl eq_refl)). simpl.
  rewrite IH by (intros e' He'; apply H; right; exact He').
  reflexivity.
Qed.

(** ** Flattening *)

Lemma flatten_loop_kernels (cls : KernelClass) (ks acc : list Kernel) :
  flatten_loop cls (map KernelObj ks) acc =
  Ok (acc ++ flat_map (contribution cls) ks).
Proof.
  revert acc.
  induction ks as [|k ks IH]; intros acc; simpl.
  - rewrite app_nil_r. reflexivity.
  - unfold contribution at 1.
    destruct (isinstance k cls); rewrite IH, <- app_assoc; reflexivity.
Qed.

Lemma flatten_loop_non_kernel (cls : KernelClass) (kernels : list PyObj)
    (v : PyVal) (acc : list Kernel) :
  In (Val v) kernels ->
  flatten_loop cls kernels acc =
  Raise (TypeError "can only combine Kernel instances").
Proof.
  revert acc.
  induction kernels as [|o rest IH]; intros acc Hin; [destruct Hin|].
  destruct o as [w|k]; simpl; [reflexivity|].
  destruct Hin as [Heq|Hin]; [discriminate Heq|].
  destruct (isinstance k cls); apply IH; exact Hin.
Qed.

Lemma flatten_loop_children (cls : KernelClass) (kernels : list PyObj)
    (acc out : list Kernel) (child : Kernel) :
  flatten_loop cls kernels acc = Ok out ->
  In child out ->
  In child acc \/
  exists operand, In (KernelObj operand) kernels /\
                  In child (contribution cls operand).
Proof.
  revert acc.
  induction kernels as [|o rest IH]; intros acc Hrun Hin; simpl in Hrun.
  - injection Hrun as <-. left. exact Hin.
  - destruct o as [w|k]; [discriminate Hrun|].
    assert (Hstep : flatten_loop cls rest (acc ++ contribution cls k) = Ok out).
    { unfold contribution. destruct (isinstance k cls); exact Hrun. }
    destruct (IH _ Hstep Hin) as [Hacc|[operand [Hop Hc]]].
    + apply in_app_or in Hacc. destruct Hacc as [Hacc|Hk].
      * left. exact Hacc.
      * right. exists k. split; [left; reflexivity | exact Hk].
    + right. exists operand. split; [right; exact Hop | exact Hc].
Qed.

Lemma CombinationKernel_kernels (ks : list Kernel) (operator : Operator) :
  CombinationKernel (map KernelObj ks) operator =
  Ok (KCombination combination_attrs
        (flat_map (contribution CombinationKernelClass) ks) operator).
Proof.
  unfold CombinationKernel, CombinationKernel__post_init__.
  rewrite flatten_loop_kernels. reflexivity.
Qed.

Lemma contribution_leaf (k : Kernel) :
  isinstance k CombinationKernelClass = false ->
  contribution CombinationKernelClass k = [k].
Proof.
  unfold contribution. intros ->. reflexivity.
Qed.

Lemma constructible_children_are_leaves (k : Kernel) :
  constructible k -> children_are_leaves k.
Proof.
  induction 1 as [ad c k Hk | ad call k Hk | kernels operator k Hops IH Hk].
  - unfold Constant in Hk.
    destruct (AbstractKernel__post_init__ ad); simpl in Hk; [|discriminate Hk].
    injection Hk as <-. intros child [].
  - unfold OtherKernel in Hk.
    destruct (AbstractKernel__post_init__ ad); simpl in Hk; [|discriminate Hk].
    injection Hk as <-. intros child [].
  - unfold CombinationKernel, CombinationKernel__post_init__ in Hk.
    apply bind_Ok_inv in Hk. destruct Hk as [out [Hloop Hk]].
    injection Hk as <-. simpl.
    intros child Hin.
    destruct (flatten_loop_children _ _ _ _ _ Hloop Hin)
      as [[]|[operand [Hop Hc]]].
    unfold contribution in Hc.
    destruct (isinstance operand CombinationKernelClass) eqn:Hcls.
    + apply (IH operand Hop). exact Hc.
    + destruct Hc as [<-|[]]. exact Hcls.
Qed.

Lemma add_kernels (A B : Kernel) :
  __add__ A (KernelObj B) =
  Ok (KCombination combination_attrs
        (contribution CombinationKernelClass A ++
         contribution CombinationKernelClass B) op_jnp_sum).
Proof.
  unfold __add__, SumKernel.
  change [KernelObj A; KernelObj B] with (map KernelObj [A; B]).
  rewrite CombinationKernel_kernels. simpl. rewrite app_nil_r. reflexivity.
Qed.

Lemma mul_kernels (A B : Kernel) :
  __mul__ A (KernelObj B) =
  Ok (KCombination combination_attrs
        (contribution CombinationKernelClass A ++
         contribution CombinationKernelClass B) op_jnp_prod).
Proof.
  unfold __mul__, ProductKernel.
  change [KernelObj A; KernelObj B] with (map KernelObj [A; B]).
  rewrite CombinationKernel_kernels. simpl. rewrite app_nil_r. reflexivity.
Qed.

(** ** Evaluation *)

Lemma call_combination (attrs : Attrs) (kernels : list Kernel)
    (operator : Operator) (x y : Array) :
  __call__ (KCombination attrs kernels operator) x y =
  (results <- comprehension (fun k => __call__ k x y) kernels ;;
   stacked <- jnp_stack results ;;
   Ok (apply_operator operator stacked)).
Proof.
  simpl. f_equal.
  induction kernels as [|k rest IH]; simpl; [reflexivity|].
  rewrite IH. reflexivity.
Qed.

Lemma jnp_stack_scalars (v : Q) (vs : list Q) :
  jnp_stack (map jnp_array (v :: vs)) =
  Ok (mkArray [S (List.length vs)] (v :: vs)).
Proof.
  assert (Hshapes :
    forallb (fun b => shape_eqb (shape b) (shape (jnp_array v)))
            (map jnp_array vs) = true).
  { apply forallb_forall. intros b Hb.
    apply in_map_iff in Hb. destruct Hb as [w [<- _]]. reflexivity. }
  unfold jnp_stack.
  change (map jnp_array (v :: vs)) with (jnp_array v :: map jnp_array vs).
  cbv iota beta. rewrite Hshapes.
  simpl. rewrite length_map. do 3 f_equal.
  clear Hshapes.
  induction vs as [|w vs IH]; simpl; [reflexivity|].
  f_equal. exact IH.
Qed.

(** When every child evaluates to a scalar, a combination evaluates to the
    reduction of those scalars in child order. *)
Lemma call_combination_scalars (attrs : Attrs) (kernels : list Kernel)
    (operator : Operator) (x y : Array) (value : Kernel -> Q) :
  kernels <> [] ->
  (forall k, In k kernels -> __call__ k x y = Ok (jnp_array (value k))) ->
  __call__ (KCombination attrs kernels operator) x y =
  Ok (jnp_array match operator with
                | op_jnp_sum => Qsum (map value kernels)
                | op_jnp_prod => Qprod (map value kernels)
                end).
Proof.
  intros Hne Hall. rewrite call_combination.
  rewrite (comprehension_total _ (fun k => jnp_array (value k)) _ Hall).
  simpl. rewrite <- (map_map value jnp_array).
  destruct kernels as [|k rest]; [contradiction|].
  change (map value (k :: rest)) with (value k :: map value rest).
  rewrite jnp_stack_scalars. simpl.
  destruct operator; reflexivity.
Qed.

(** ** The constant kernel *)



(** ** Operand validation *)

(** C9. Constructing a combination from an operand list that holds a
    non-kernel value raises [TypeError("can only combine Kernel instances")],
    whatever the other operands are and for both factories. *)
Theorem CombinationKernel_rejects_non_kernel (kernels : list PyObj)
    (operator : Operator) (v : PyVal) :
  In (Val v) kernels ->
  CombinationKernel kernels operator =
    Raise (TypeError "can only combine Kernel instances") /\
  SumKernel kernels = Raise (TypeError "can only combine Kernel instances") /\
  ProductKernel kernels = Raise (TypeError "can only combine Kernel instances").
Proof.
  intros Hin.
  assert (H : forall op, CombinationKernel kernels op =
                         Raise (TypeError "can only combine Kernel instances")).
  { intros op. unfold CombinationKernel, CombinationKernel__post_init__.
    rewrite (flatten_loop_non_kernel _ _ v _ Hin). reflexivity. }
  unfold SumKernel, ProductKernel. rewrite !H. auto.
Qed.

Lemma CombinationKernel_rejects_non_kernel_witness :
  let kernels :=
    [KernelObj (constant_kernel 2); Val (VStr "rbf");
     KernelObj (constant_kernel 1)] in
  In (Val (VStr "rbf")) kernels /\
  (CombinationKernel kernels op_jnp_sum =
     Raise (TypeError "can only combine Kernel instances") /\
   SumKernel kernels = Raise (TypeError "can only combine Kernel instances") /\
   ProductKernel kernels =
     Raise (TypeError "can only combine Kernel instances")).
Proof.
  intros kernels.
  assert (Hin : In (Val (VStr "rbf")) kernels) by (simpl; auto).
  split; [exact Hin|].
  exact (CombinationKernel_rejects_non_kernel kernels op_jnp_sum _ Hin).
Defined.

(** ** Slices with a missing bound *)

(** C10. For a slice whose start or stop is [None] the normaliser raises
    the [TypeError] of the subtraction [stop - start]: it neither raises its
    own [ValueError] nor returns a result. *)
Theorem check_active_dims_slice_missing_bound (start stop step : option Z) :
  start = None \/ stop = None ->
  _check_active_dims (VSlice start stop step) =
    Raise (sub_operand_error stop start) /\
  (exists msg, sub_operand_error stop start = TypeError msg) /\
  _check_active_dims (VSlice start stop step) <>
    Raise (ValueError "active_dims must be a list, int or slice.") /\
  (forall r, _check_active_dims (VSlice start stop step) <> Ok r).
Proof.
  intros Hmissing.
  assert (Hraise : _check_active_dims (VSlice start stop step) =
                   Raise (sub_operand_error stop start)).
  { destruct Hmissing as [-> | ->]; [destruct stop | destruct start];
      reflexivity. }
  rewrite Hraise. repeat split.
  - unfold sub_operand_error. eexists. reflexivity.
  - unfold sub_operand_error. intros H. discriminate H.
  - intros r H. discriminate H.
Qed.

Lemma check_active_dims_slice_missing_bound_witness :
  (@None Z = None \/ Some 5 = None) /\
  (_check_active_dims (VSlice None (Some 5) None) =
     Raise (sub_operand_error (Some 5) None) /\
   (exists msg, sub_operand_error (Some 5) None = TypeError msg) /\
   _check_active_dims (VSlice None (Some 5) None) <>
     Raise (ValueError "active_dims must be a list, int or slice.") /\
   (forall r, _check_active_dims (VSlice None (Some 5) None) <> Ok r)).
Proof.
  split.
  - left. reflexivity.
  - apply (check_active_dims_slice_missing_bound None (Some 5) None).
    left. reflexivity.
Defined.

(** The converse: a slice the normaliser accepts has integer bounds and a
    non-zero step. *)
Lemma check_active_dims_slice_Ok (start stop step : option Z) (r : Z * PyVal) :
  _check_active_dims (VSlice start stop step) = Ok r ->
  exists a b, start = Some a /\ stop = Some b /\ step <> Some 0 /\
              r = ((b - a) / match step with Some s => s | None => 1 end,
                   VSlice start stop step).
Proof.
  destruct start as [a|], stop as [b|]; simpl; try discriminate.
  unfold py_floordiv.
  destruct step as [s|]; simpl.
  - destruct (s =? 0) eqn:Hs; simpl; [discriminate|].
    intros H. injection H as <-. exists a, b. repeat split.
    intros Hz. injection Hz as ->. discriminate Hs.
  - intros H. injection H as <-. exists a, b. repeat split. discriminate.
Qed.

(** ** Scalars on the right of [+] and [*] *)

(** C1. The code departs from the claim: [Constant(other)] binds the scalar
    to [active_dims], the first init field, and leaves [constant] at its
    default.  For a float scalar, a Python float or a rank-0 array, the
    normaliser then rejects the selector, so both [self + c] and [self * c]
    raise [ValueError] for every kernel [self]. *)
Theorem add_mul_float_scalar_raise (self : Kernel) (c : Q) :
  __add__ self (Val (VFloat c)) =
    Raise (ValueError "active_dims must be a list, int or slice.") /\
  __mul__ self (Val (VFloat c)) =
    Raise (ValueError "active_dims must be a list, int or slice.") /\
  __add__ self (Val (VArray (jnp_array c))) =
    Raise (ValueError "active_dims must be a list, int or slice.") /\
  __mul__ self (Val (VArray (jnp_array c))) =
    Raise (ValueError "active_dims must be a list, int or slice.").
Proof.
  repeat split; reflexivity.
Qed.

(** An integer scalar is accepted as a selector, and the kernel that stands
    for it holds the default constant [0]: [Constant(2.0) + 3] evaluates to
    [2], and [Constant(2.0) * 3] to [0]. *)
Example add_mul_int_scalar :
  (exists k, __add__ (constant_kernel 2) (Val (VInt 3)) = Ok k /\
             kernels_of k =
               [constant_kernel 2;
                KConstant (mkAttrs (Some 3) (VSlice None None None) default_name)
                          (jnp_array 0)] /\
             __call__ k origin origin = Ok (jnp_array 2)) /\
  (exists k, __mul__ (constant_kernel 2) (Val (VInt 3)) = Ok k /\
             __call__ k origin origin = Ok (jnp_array 0)).
Proof.
  split; eexists; repeat split; reflexivity.
Qed.

(** ** Operands of the other reduction *)

(** A combination operand is spliced whatever reduction it is bound to. *)
Lemma CombinationKernel_splices_any_combination (attrs : Attrs)
    (children rest : list Kernel) (inner outer : Operator) :
  CombinationKernel
    (KernelObj (KCombination attrs children inner) :: map KernelObj rest) outer =
  Ok (KCombination combination_attrs
        (children ++ flat_map (contribution CombinationKernelClass) rest)
        outer).
Proof.
  change (KernelObj (KCombination attrs children inner) :: map KernelObj rest)
    with (map KernelObj (KCombination attrs children inner :: rest)).
  rewrite CombinationKernel_kernels. reflexivity.
Qed.

(** C2. The code departs from the claim: the flattening test compares
    classes, and a product is an instance of the same class as a sum.  The
    sum built from the product [Constant(2.0) * Constant(5.0)] and
    [Constant(1.0)] has the three constants as children, not the product
    and the constant. *)
Theorem SumKernel_splices_product_operand :
  ProductKernel [KernelObj (constant_kernel 2); KernelObj (constant_kernel 5)] =
    Ok product_2_5 /\
  SumKernel [KernelObj product_2_5; KernelObj (constant_kernel 1)] =
    Ok (KCombination combination_attrs
          [constant_kernel 2; constant_kernel 5; constant_kernel 1]
          op_jnp_sum) /\
  SumKernel [KernelObj product_2_5; KernelObj (constant_kernel 1)] <>
    Ok (KCombination combination_attrs [product_2_5; constant_kernel 1]
          op_jnp_sum).
Proof.
  repeat split; try reflexivity.
  intros H. discriminate H.
Qed.

(** ** Evaluation of combinations *)

(** [Constant(2.0) * Constant(3.0)] evaluates to 6 and
    [Constant(2.0) + Constant(3.0)] to 5. *)
Example constant_product_and_sum (x y : Array) :
  (exists k, __mul__ (constant_kernel 2) (KernelObj (constant_kernel 3)) = Ok k /\
             __call__ k x y = Ok (jnp_array 6)) /\
  (exists k, __add__ (constant_kernel 2) (KernelObj (constant_kernel 3)) = Ok k /\
             __call__ k x y = Ok (jnp_array 5)).
Proof.
  split; eexists; split; reflexivity.
Qed.

(** For two operands that are not combinations and evaluate to scalars,
    [A + B] evaluates to the sum of the two values. *)
Lemma add_leaves_evaluates_sum (A B : Kernel) (x y : Array) (a b : Q) :
  isinstance A CombinationKernelClass = false ->
  isinstance B CombinationKernelClass = false ->
  __call__ A x y = Ok (jnp_array a) ->
  __call__ B x y = Ok (jnp_array b) ->
  exists k r,
    __add__ A (KernelObj B) = Ok k /\
    __call__ k x y = Ok r /\
    array_equiv r (jnp_array (a + b)).
Proof.
  intros HA HB Ha Hb.
  exists (KCombination combination_attrs [A; B] op_jnp_sum).
  exists (jnp_array (Qsum [a; b])).
  split.
  - rewrite add_kernels, (contribution_leaf A HA), (contribution_leaf B HB).
    reflexivity.
  - split.
    + rewrite call_combination. simpl. rewrite Ha, Hb. reflexivity.
    + split; [reflexivity|]. simpl. constructor; [|constructor].
      unfold Qsum. simpl. ring.
Qed.

(** C5. The code departs from the claim in its instance for [A + B]: with
    [A = Constant(2.0) * Constant(5.0)] and [B = Constant(1.0)], [A]
    evaluates to 10 and [B] to 1, but [A + B], whose children are the three
    constants, evaluates to 8. *)
Theorem sum_with_product_operand_evaluates_children_sum :
  __call__ product_2_5 origin origin = Ok (jnp_array 10) /\
  __call__ (constant_kernel 1) origin origin = Ok (jnp_array 1) /\
  exists k, __add__ product_2_5 (KernelObj (constant_kernel 1)) = Ok k /\
            __call__ k origin origin = Ok (jnp_array 8).
Proof.
  repeat split. eexists. split; reflexivity.
Qed.

(** ** [n_dims] against the selected columns *)

(** C3. The code departs from the claim: for [slice(0, 5, 2)] the normaliser
    computes [n_dims = (5 - 0) // 2 = 2], while the slice selects the three
    columns 0, 2 and 4 of a five-column input; and a combination built by a
    factory is left without [n_dims], its [active_dims] being the raw
    default [1]. *)
Theorem n_dims_disagrees_with_selected_columns :
  (exists k,
      Constant (VSlice (Some 0) (Some 5) (Some 2)) default_constant = Ok k /\
      n_dims (attrs_of k) = Some 2 /\
      slice_input k (mkArray [5%nat] [10; 20; 30; 40; 50]%Q) =
        Ok (mkArray [3%nat] [10; 30; 50]%Q)) /\
  (exists k,
      SumKernel [KernelObj (constant_kernel 2); KernelObj (constant_kernel 3)] =
        Ok k /\
      n_dims (attrs_of k) = None /\
      active_dims (attrs_of k) = VInt 1).
Proof.
  split; eexists; repeat split; reflexivity.
Qed.

(** ** Stacking *)

Lemma shape_eqb_eq (s t : list nat) : shape_eqb s t = true <-> s = t.
Proof.
  unfold shape_eqb. destruct (list_eq_dec Nat.eq_dec s t) as [E|N].
  - split; auto.
  - split; [discriminate | contradiction].
Qed.

Lemma forallb_false_In {A : Type} (f : A -> bool) (l : list A) :
  forallb f l = false -> exists e, In e l /\ f e = false.
Proof.
  induction l as [|e l IH]; simpl; [discriminate|].
  destruct (f e) eqn:He; simpl.
  - intros H. destruct (IH H) as [e' [Hin Hf]].
    exists e'. split; [right; exact Hin | exact Hf].
  - intros _. exists e. split; [left; reflexivity | exact He].
Qed.

(** What [jnp.stack] returns, and when it raises. *)
Lemma jnp_stack_cases (l : list Array) :
  match jnp_stack l with
  | Ok a =>
      l <> [] /\
      (forall b, In b l -> shape a = List.length l :: shape b) /\
      data a = List.concat (map data l)
  | Raise _ =>
      l = [] \/ exists b c, In b l /\ In c l /\ shape b <> shape c
  end.
Proof.
  destruct l as [|a rest]; [left; reflexivity|].
  unfold jnp_stack.
  destruct (forallb (fun b => shape_eqb (shape b) (shape a)) rest) eqn:Hall.
  - split; [discriminate|]. split; [|reflexivity].
    intros b [<-|Hb]; [reflexivity|].
    simpl shape. f_equal. symmetry. apply shape_eqb_eq.
    exact (proj1 (forallb_forall _ _) Hall b Hb).
  - right. destruct (forallb_false_In _ _ Hall) as [c [Hc Hne]].
    exists c, a. split; [right; exact Hc|]. split; [left; reflexivity|].
    intros E. apply shape_eqb_eq in E. rewrite E in Hne. discriminate Hne.
Qed.

(** ** Flat chains *)

Lemma constant_kernel_constructible (v : Q) : constructible (constant_kernel v).
Proof.
  apply (constructible_Constant default_active_dims (jnp_array v)).
  reflexivity.
Qed.

(** C4, counterexample. With [A = Constant(1.0) + Constant(2.0)],
    [B = Constant(3.0)] and [C = Constant(4.0)], the composite [(A + B) + C]
    has four children: the operand [A], a sum, is spliced. *)
Lemma sum_chain_counterexample :
  exists A AB ABC,
    __add__ (constant_kernel 1) (KernelObj (constant_kernel 2)) = Ok A /\
    __add__ A (KernelObj (constant_kernel 3)) = Ok AB /\
    __add__ AB (KernelObj (constant_kernel 4)) = Ok ABC /\
    List.length (kernels_of ABC) = 4%nat /\
    List.length (kernels_of ABC) <> 3%nat.
Proof.
  do 3 eexists. repeat split; try reflexivity.
  simpl. discriminate.
Qed.

(** C4, amended. For three kernels [A], [B], [C] none of which is a
    combination, [(A + B) + C] has exactly the children [A], [B], [C]; and
    no child of a constructible combination is a combination bound to the
    same reduction. *)
Theorem sum_chain_is_flat (A B C k : Kernel) :
  isinstance A CombinationKernelClass = false ->
  isinstance B CombinationKernelClass = false ->
  isinstance C CombinationKernelClass = false ->
  constructible k ->
  (exists AB ABC,
      __add__ A (KernelObj B) = Ok AB /\
      __add__ AB (KernelObj C) = Ok ABC /\
      kernels_of ABC = [A; B; C]) /\
  (forall child, In child (kernels_of k) -> ~ nested_same_kind k child).
Proof.
  intros HA HB HC Hk. split.
  - do 2 eexists. split; [apply add_kernels|]. split; [apply add_kernels|].
    rewrite (contribution_leaf A HA), (contribution_leaf B HB),
      (contribution_leaf C HC).
    reflexivity.
  - intros child Hin Hnested.
    pose proof (constructible_children_are_leaves k Hk child Hin) as Hleaf.
    destruct k; try contradiction.
    destruct child; try contradiction.
    discriminate Hleaf.
Qed.

Lemma sum_chain_is_flat_witness :
  let A := constant_kernel 1 in
  let B := constant_kernel 2 in
  let C := constant_kernel 3 in
  let k := KCombination combination_attrs [A; B; C] op_jnp_sum in
  isinstance A CombinationKernelClass = false /\
  isinstance B CombinationKernelClass = false /\
  isinstance C CombinationKernelClass = false /\
  constructible k /\
  (exists AB ABC,
      __add__ A (KernelObj B) = Ok AB /\
      __add__ AB (KernelObj C) = Ok ABC /\
      kernels_of ABC = [A; B; C]) /\
  (forall child, In child (kernels_of k) -> ~ nested_same_kind k child).
Proof.
  intros A B C k.
  assert (Hk : constructible k).
  { apply (constructible_Combination
             [KernelObj A; KernelObj B; KernelObj C] op_jnp_sum).
    - intros operand [E|[E|[E|[]]]]; injection E as <-;
        apply constant_kernel_constructible.
    - reflexivity. }
  exact (conj eq_refl (conj eq_refl (conj eq_refl (conj Hk
           (sum_chain_is_flat A B C k eq_refl eq_refl eq_refl Hk))))).
Defined.

(** ** The integer selector *)

Lemma getitem_last_slice (x : Array) (leading : list nat) (D : nat)
    (start stop step : option Z) :
  shape x = leading ++ [D] ->
  getitem_last x (VSlice start stop step) =
  (cols <- slice_columns D start stop step ;;
   Ok (mkArray (leading ++ [List.length cols])
         (List.concat (map (take_columns cols)
                           (rows_of (prod_shape leading) D (data x)))))).
Proof.
  intros Hshape. unfold getitem_last.
  rewrite Hshape, rev_app_distr. simpl. rewrite rev_involutive. reflexivity.
Qed.

(** [x[..., :k]] for [k >= 0] keeps the first [min k D] columns. *)
Lemma slice_columns_prefix (D : nat) (k : Z) :
  0 <= k ->
  slice_columns D None (Some k) None =
  Ok (map Z.of_nat (seq 0 (Nat.min (Z.to_nat k) D))).
Proof.
  intros Hk. unfold slice_columns, slice_indices, adjust_bound. simpl.
  destruct (k <? 0) eqn:Hneg; [apply Z.ltb_lt in Hneg; lia|].
  unfold py_range, range_length. simpl.
  replace (Z.to_nat _) with (Nat.min (Z.to_nat k) D).
  - f_equal. apply map_ext. intros i. lia.
  - destruct (0 <? Z.min k (Z.of_nat D)) eqn:Hpos.
    + rewrite Z.div_1_r. lia.
    + apply Z.ltb_ge in Hpos. lia.
Qed.

(** [x[..., :]] keeps every column. *)
Lemma slice_columns_all (D : nat) :
  slice_columns D None None None = Ok (map Z.of_nat (seq 0 D)).
Proof.
  unfold slice_columns, slice_indices, adjust_bound. simpl.
  unfold py_range, range_length. simpl.
  replace (Z.to_nat _) with D.
  - f_equal. apply map_ext. intros i. lia.
  - destruct (0 <? Z.of_nat D) eqn:Hpos.
    + rewrite Z.div_1_r. lia.
    + apply Z.ltb_ge in Hpos. lia.
Qed.

Lemma take_columns_prefix (n : nat) (row : list Q) :
  (n <= List.length row)%nat ->
  take_columns (map Z.of_nat (seq 0 n)) row = firstn n row.
Proof.
  unfold take_columns. rewrite map_map.
  revert row. induction n as [|n IH]; intros row Hn; [reflexivity|].
  destruct row as [|q row]; [simpl in Hn; lia|].
  simpl. f_equal.
  rewrite <- (IH row) by (simpl in Hn; lia).
  rewrite <- seq_shift, map_map.
  apply map_ext. intros i. rewrite !Nat2Z.id. reflexivity.
Qed.

Lemma rows_of_concat (n D : nat) (l : list Q) :
  List.length l = (n * D)%nat ->
  List.concat (rows_of n D l) = l /\
  Forall (fun row => List.length row = D) (rows_of n D l).
Proof.
  revert l. induction n as [|n IH]; intros l Hlen; simpl in *.
  - apply length_zero_iff_nil in Hlen. subst l. split; constructor.
  - destruct (IH (skipn D l)) as [Hc Hf].
    { rewrite length_skipn. lia. }
    split.
    + rewrite Hc. apply firstn_skipn.
    + constructor; [|exact Hf]. rewrite length_firstn. lia.
Qed.

Lemma prod_shape_app (s : list nat) (D : nat) :
  prod_shape (s ++ [D]) = (prod_shape s * D)%nat.
Proof.
  unfold prod_shape. induction s as [|d s IH]; simpl; [lia|].
  rewrite IH. lia.
Qed.

Lemma gather_all_columns (D : nat) (rows : list (list Q)) :
  Forall (fun row => List.length row = D) rows ->
  map (take_columns (map Z.of_nat (seq 0 D))) rows = rows.
Proof.
  induction 1 as [|row rows Hrow _ IH]; simpl; [reflexivity|].
  rewrite IH. f_equal.
  rewrite take_columns_prefix by lia.
  rewrite <- Hrow. apply firstn_all.
Qed.

Lemma gather_every_column (x : Array) (leading : list nat) (D : nat) :
  well_shaped x -> shape x = leading ++ [D] ->
  let cols := map Z.of_nat (seq 0 D) in
  mkArray (leading ++ [List.length cols])
    (List.concat (map (take_columns cols)
                      (rows_of (prod_shape leading) D (data x)))) = x.
Proof.
  intros Hwf Hshape cols. unfold cols.
  rewrite length_map, length_seq.
  unfold well_shaped in Hwf. rewrite Hshape, prod_shape_app in Hwf.
  destruct (rows_of_concat _ _ _ Hwf) as [Hc Hf].
  rewrite (gather_all_columns D _ Hf), Hc, <- Hshape.
  destruct x; reflexivity.
Qed.

(** Selecting every column of a well-shaped array of rank at least one
    returns the array. *)
Lemma getitem_last_all (x : Array) :
  well_shaped x -> shape x <> [] ->
  getitem_last x (VSlice None None None) = Ok x.
Proof.
  intros Hwf Hrank.
  destruct (exists_last Hrank) as [leading [D Hshape]].
  rewrite (getitem_last_slice x leading D _ _ _ Hshape), slice_columns_all.
  simpl. f_equal. exact (gather_every_column x leading D Hwf Hshape).
Qed.

(** Selecting the first [k] columns of an array that has at most [k]
    columns returns the array. *)
Lemma getitem_last_prefix_wide (x : Array) (k : Z) :
  well_shaped x -> shape x <> [] ->
  Z.of_nat (last (shape x) 0%nat) <= k ->
  getitem_last x (VSlice None (Some k) None) = Ok x.
Proof.
  intros Hwf Hrank Hwidth.
  destruct (exists_last Hrank) as [leading [D Hshape]].
  rewrite Hshape, last_last in Hwidth.
  rewrite (getitem_last_slice x leading D _ _ _ Hshape),
    (slice_columns_prefix D k) by lia.
  replace (Nat.min (Z.to_nat k) D) with D by lia.
  simpl. f_equal. exact (gather_every_column x leading D Hwf Hshape).
Qed.

Lemma getitem_last_prefix_shape (x : Array) (leading : list nat) (D : nat)
    (k : Z) :
  0 <= k -> shape x = leading ++ [D] ->
  exists values,
    getitem_last x (VSlice None (Some k) None) =
    Ok (mkArray (leading ++ [Nat.min (Z.to_nat k) D]) values).
Proof.
  intros Hk Hshape.
  rewrite (getitem_last_slice x leading D _ _ _ Hshape),
    (slice_columns_prefix D k Hk).
  simpl. rewrite length_map, length_seq. eexists. reflexivity.
Qed.

(** C8, counterexample. With the selector [1], [slice_input] returns all
    three columns of a three-column input, whose first column alone is a
    one-column array. *)
Lemma int_selector_counterexample :
  exists self,
    Constant (VInt 1) default_constant = Ok self /\
    n_dims (attrs_of self) = Some 1 /\
    slice_input self three_columns = Ok three_columns /\
    getitem_last three_columns (VSlice None (Some 1) None) =
      Ok (mkArray [1%nat] [10%Q]) /\
    slice_input self three_columns <>
      getitem_last three_columns (VSlice None (Some 1) None).
Proof.
  eexists. repeat split; try reflexivity.
  intros H. discriminate H.
Qed.

(** C8, amended. For a positive integer [k] the normaliser returns
    [n_dims = k] and the unrestricted slice [slice(None)]; with that selector
    [slice_input] returns a well-shaped input of rank at least one unchanged,
    and this is the selection of the first [k] columns exactly when the input
    has at most [k] columns. *)
Theorem int_selector_is_full_width (k : Z) (x : Array) :
  0 < k -> well_shaped x -> shape x <> [] ->
  _check_active_dims (VInt k) = Ok (k, VSlice None None None) /\
  forall self,
    active_dims (attrs_of self) = VSlice None None None ->
    slice_input self x = Ok x /\
    (slice_input self x = getitem_last x (VSlice None (Some k) None) <->
     Z.of_nat (last (shape x) 0%nat) <= k).
Proof.
  intros Hk Hwf Hrank. split; [reflexivity|].
  intros self Hsel.
  assert (Hpass : slice_input self x = Ok x).
  { unfold slice_input. rewrite Hsel. apply getitem_last_all; assumption. }
  split; [exact Hpass|]. rewrite Hpass. split.
  - intros Hsame.
    destruct (exists_last Hrank) as [leading [D Hshape]].
    destruct (getitem_last_prefix_shape x leading D k ltac:(lia) Hshape)
      as [values Hprefix].
    rewrite Hprefix in Hsame. injection Hsame as Hx.
    rewrite Hshape, last_last.
    assert (Hcols : shape x = leading ++ [Nat.min (Z.to_nat k) D])
      by (rewrite Hx; reflexivity).
    rewrite Hshape in Hcols. apply app_inv_head in Hcols.
    injection Hcols as Hmin. lia.
  - intros Hwidth. symmetry.
    apply getitem_last_prefix_wide; assumption.
Qed.

Lemma int_selector_is_full_width_witness :
  let x := mkArray [2%nat; 2%nat] [1; 2; 3; 4]%Q in
  0 < 2 /\ well_shaped x /\ shape x <> [] /\
  (_check_active_dims (VInt 2) = Ok (2, VSlice None None None) /\
   forall self,
     active_dims (attrs_of self) = VSlice None None None ->
     slice_input self x = Ok x /\
     (slice_input self x = getitem_last x (VSlice None (Some 2) None) <->
      Z.of_nat (last (shape x) 0%nat) <= 2)).
Proof.
  intros x.
  assert (Hk : 0 < 2) by lia.
  assert (Hwf : well_shaped x) by reflexivity.
  assert (Hrank : shape x <> []) by (simpl; discriminate).
  exact (conj Hk (conj Hwf (conj Hrank
           (int_selector_is_full_width 2 x Hk Hwf Hrank)))).
Defined.

(** ** Where [n_dims] does count the selected columns *)

Lemma check_active_dims_list (items : list Z) :
  _check_active_dims (VList items) =
  Ok (Z.of_nat (List.length items), VList items).
Proof. reflexivity. Qed.

Lemma check_active_dims_slice (a b s : Z) :
  s <> 0 ->
  _check_active_dims (VSlice (Some a) (Some b) (Some s)) =
  Ok ((b - a) / s, VSlice (Some a) (Some b) (Some s)).
Proof.
  intros Hs. simpl. unfold py_floordiv.
  destruct (s =? 0) eqn:E; [apply Z.eqb_eq in E; contradiction|].
  reflexivity.
Qed.

(** A slice within the width of the axis selects the ceiling of
    [(stop - start) / step] columns. *)
Lemma slice_columns_count (D : nat) (a b s : Z) :
  0 <= a <= b -> b <= Z.of_nat D -> 0 < s ->
  exists cols,
    slice_columns D (Some a) (Some b) (Some s) = Ok cols /\
    Z.of_nat (List.length cols) = (b - a + s - 1) / s.
Proof.
  intros Hab HbD Hs.
  unfold slice_columns, slice_indices, adjust_bound.
  destruct (s =? 0) eqn:E0; [apply Z.eqb_eq in E0; lia|].
  destruct (s <? 0) eqn:Eneg; [apply Z.ltb_lt in Eneg; lia|].
  destruct (a <? 0) eqn:Ea; [apply Z.ltb_lt in Ea; lia|].
  destruct (b <? 0) eqn:Eb; [apply Z.ltb_lt in Eb; lia|].
  rewrite (Z.min_l a), (Z.min_l b) by lia.
  simpl. eexists. split; [reflexivity|].
  unfold py_range, range_length. rewrite length_map, length_seq.
  destruct (0 <? s) eqn:Epos; [|apply Z.ltb_ge in Epos; lia].
  destruct (a <? b) eqn:Elt.
  - apply Z.ltb_lt in Elt.
    replace (b - a + s - 1) with (b - a - 1 + 1 * s) by lia.
    rewrite Z.div_add by lia.
    assert (0 <= (b - a - 1) / s) by (apply Z.div_pos; lia).
    lia.
  - apply Z.ltb_ge in Elt.
    replace (b - a + s - 1) with (s - 1) by lia.
    rewrite Z.div_small by lia. reflexivity.
Qed.

Lemma ceiling_is_floor_iff_divides (d s : Z) :
  0 < s -> ((d + s - 1) / s = d / s <-> d mod s = 0).
Proof.
  intros Hs.
  pose proof (Z.div_mod d s ltac:(lia)) as Hd.
  pose proof (Z.mod_pos_bound d s Hs) as Hr.
  destruct (Z.eq_dec (d mod s) 0) as [E|N].
  - split; [intros _; exact E|intros _].
    symmetry. apply (Z.div_unique _ _ _ (s - 1)); lia.
  - split; [|intros E; contradiction].
    intros H. exfalso.
    assert (Hup : d / s + 1 = (d + s - 1) / s).
    { apply (Z.div_unique _ _ _ (d mod s - 1)); lia. }
    lia.
Qed.

(** For a slice [slice(a, b, s)] with [0 <= a <= b], [s > 0], applied to an
    input wide enough for it, [n_dims] is the number of selected columns
    exactly when [s] divides [b - a]. *)
Lemma slice_n_dims_counts_columns_iff (D : nat) (a b s : Z) :
  0 <= a <= b -> b <= Z.of_nat D -> 0 < s ->
  exists n cols,
    _check_active_dims (VSlice (Some a) (Some b) (Some s)) =
      Ok (n, VSlice (Some a) (Some b) (Some s)) /\
    slice_columns D (Some a) (Some b) (Some s) = Ok cols /\
    (n = Z.of_nat (List.length cols) <-> (b - a) mod s = 0).
Proof.
  intros Hab HbD Hs.
  destruct (slice_columns_count D a b s Hab HbD Hs) as [cols [Hcols Hlen]].
  exists ((b - a) / s), cols.
  split; [apply check_active_dims_slice; lia|].
  split; [exact Hcols|].
  rewrite Hlen, <- (ceiling_is_floor_iff_divides (b - a) s Hs).
  split; intros H; symmetry; exact H.
Qed.

(** * Further properties of the code *)

(** ** The normaliser and the selected columns *)

Lemma post_init_Ok (sel : PyVal) (attrs : Attrs) :
  AbstractKernel__post_init__ sel = Ok attrs ->
  exists n canonical,
    _check_active_dims sel = Ok (n, canonical) /\
    attrs = mkAttrs (Some n) canonical default_name.
Proof.
  unfold AbstractKernel__post_init__. intros H.
  apply bind_Ok_inv in H. destruct H as [[n canonical] [Hcheck Hattrs]].
  injection Hattrs as <-. exists n, canonical. split; [exact Hcheck|reflexivity].
Qed.

Lemma getitem_last_list (x : Array) (leading : list nat) (D : nat)
    (items : list Z) :
  shape x = leading ++ [S D] ->
  exists values,
    getitem_last x (VList items) =
    Ok (mkArray (leading ++ [List.length items]) values).
Proof.
  intros Hshape. unfold getitem_last.
  rewrite Hshape, rev_app_distr. simpl. rewrite rev_involutive.
  eexists. reflexivity.
Qed.

(** X1. For a kernel built from a list selector, [n_dims] is the length of
    the list, and on any input whose trailing axis is not empty
    [slice_input] returns an array with the same leading axes and exactly
    [n_dims] columns. *)
Theorem list_selector_counts_columns (self : Kernel) (items : list Z)
    (x : Array) (leading : list nat) (D : nat) :
  AbstractKernel__post_init__ (VList items) = Ok (attrs_of self) ->
  shape x = leading ++ [S D] ->
  n_dims (attrs_of self) = Some (Z.of_nat (List.length items)) /\
  exists r, slice_input self x = Ok r /\
            shape r = leading ++ [List.length items].
Proof.
  intros Hinit Hshape.
  destruct (post_init_Ok _ _ Hinit) as [n [canonical [Hcheck Hattrs]]].
  simpl in Hcheck. injection Hcheck as <- <-.
  rewrite Hattrs. simpl. split; [reflexivity|].
  unfold slice_input. rewrite Hattrs. simpl active_dims. cbv iota.
  destruct (getitem_last_list x leading D items Hshape) as [values Hget].
  rewrite Hget. eexists. split; reflexivity.
Qed.

Lemma list_selector_counts_columns_witness :
  let self := KConstant (mkAttrs (Some 2) (VList [2; 0]) default_name)
                        default_constant in
  AbstractKernel__post_init__ (VList [2; 0]) = Ok (attrs_of self) /\
  shape three_columns = [] ++ [3%nat] /\
  (n_dims (attrs_of self) = Some (Z.of_nat (List.length [2; 0])) /\
   exists r, slice_input self three_columns = Ok r /\
             shape r = [] ++ [List.length [2; 0]]).
Proof.
  intros self.
  exact (conj eq_refl (conj eq_refl
           (list_selector_counts_columns self [2; 0] three_columns [] 2
              eq_refl eq_refl))).
Defined.

(** X2. For a kernel built from [slice(a, b, s)] with [0 <= a <= b] and
    [s > 0], on an input with at least [b] columns [slice_input] keeps the
    leading axes and returns some number [c] of columns, and [n_dims] equals
    [c] exactly when [s] divides [b - a]. *)
Theorem slice_selector_counts_columns_iff (self : Kernel) (a b s : Z)
    (x : Array) (leading : list nat) (D : nat) :
  0 <= a <= b -> b <= Z.of_nat D -> 0 < s ->
  AbstractKernel__post_init__ (VSlice (Some a) (Some b) (Some s)) =
    Ok (attrs_of self) ->
  shape x = leading ++ [D] ->
  exists n r c,
    n_dims (attrs_of self) = Some n /\
    slice_input self x = Ok r /\
    shape r = leading ++ [c] /\
    (n = Z.of_nat c <-> (b - a) mod s = 0).
Proof.
  intros Hab HbD Hs Hinit Hshape.
  destruct (post_init_Ok _ _ Hinit) as [n [canonical [Hcheck Hattrs]]].
  rewrite check_active_dims_slice in Hcheck by lia.
  injection Hcheck as <- <-.
  destruct (slice_columns_count D a b s Hab HbD Hs) as [cols [Hcols Hlen]].
  exists ((b - a) / s).
  eexists. exists (List.length cols).
  split; [rewrite Hattrs; reflexivity|].
  split.
  - unfold slice_input. rewrite Hattrs. simpl active_dims. cbv iota.
    rewrite (getitem_last_slice x leading D _ _ _ Hshape), Hcols.
    reflexivity.
  - split; [reflexivity|].
    rewrite Hlen, <- (ceiling_is_floor_iff_divides (b - a) s Hs).
    split; intros H; symmetry; exact H.
Qed.

Lemma slice_selector_counts_columns_iff_witness :
  let sel := VSlice (Some 0) (Some 3) (Some 2) in
  let self := KConstant (mkAttrs (Some 1) sel default_name) default_constant in
  0 <= 0 <= 3 /\ 3 <= Z.of_nat 3 /\ 0 < 2 /\
  AbstractKernel__post_init__ sel = Ok (attrs_of self) /\
  shape three_columns = [] ++ [3%nat] /\
  exists n r c,
    n_dims (attrs_of self) = Some n /\
    slice_input self three_columns = Ok r /\
    shape r = [] ++ [c] /\
    (n = Z.of_nat c <-> (3 - 0) mod 2 = 0).
Proof.
  intros sel self.
  assert (H1 : 0 <= 0 <= 3) by lia.
  assert (H2 : 3 <= Z.of_nat 3) by (simpl; lia).
  assert (H3 : 0 < 2) by lia.
  exact (conj H1 (conj H2 (conj H3 (conj eq_refl (conj eq_refl
           (slice_selector_counts_columns_iff self 0 3 2 three_columns [] 3
              H1 H2 H3 eq_refl eq_refl)))))).
Defined.

Lemma canonical_selector_shape (sel : PyVal) (n : Z) (canonical : PyVal) :
  _check_active_dims sel = Ok (n, canonical) ->
  canonical_selector canonical /\ canonical <> VNone.
Proof.
  intros Hcheck.
  destruct sel as [ |k|v|str|items|start stop step|arr];
    try discriminate Hcheck; simpl in Hcheck.
  - injection Hcheck as _ <-. split; [exact I | discriminate].
  - injection Hcheck as _ <-. split; [exact I | discriminate].
  - apply bind_Ok_inv in Hcheck. destruct Hcheck as [d [_ Hcheck]].
    apply bind_Ok_inv in Hcheck. destruct Hcheck as [q [_ Hcheck]].
    injection Hcheck as _ <-. split; [exact I | discriminate].
Qed.

(** X3. The normaliser raises its own [ValueError] exactly for a selector
    that is not a list, an integer or a slice.  A slice with integer bounds
    never reaches it: with step [0] it raises [ZeroDivisionError], and with
    any other step, or none, it returns the floor quotient of
    [stop - start] by the step together with the slice itself. *)
Theorem check_active_dims_errors (sel : PyVal) :
  (_check_active_dims sel =
     Raise (ValueError "active_dims must be a list, int or slice.") <->
   ~ selector_type sel) /\
  (forall a b, sel = VSlice (Some a) (Some b) (Some 0) ->
               _check_active_dims sel = Raise ZeroDivisionError) /\
  (forall a b step,
      sel = VSlice (Some a) (Some b) step -> step <> Some 0 ->
      _check_active_dims sel =
      Ok ((b - a) / match step with Some s => s | None => 1 end, sel)).
Proof.
  split; [|split].
  - destruct sel as [ |k|v|str|items|start stop step|arr]; simpl;
      try (split; [intros _ H; exact H | intros _; reflexivity]);
      try (split; [intros H; discriminate H | intros H; exfalso; exact (H I)]).
    split; [|intros H; exfalso; exact (H I)].
    destruct start as [a|], stop as [b|]; simpl; try discriminate.
    unfold py_floordiv. destruct step as [st|]; simpl;
      [destruct (st =? 0)|]; discriminate.
  - intros a b ->. reflexivity.
  - intros a b step -> Hstep. simpl. unfold py_floordiv.
    destruct step as [st|]; simpl; [|reflexivity].
    destruct (st =? 0) eqn:E; [|reflexivity].
    apply Z.eqb_eq in E. subst st. contradiction.
Qed.

(** X4. The selector the normaliser hands back is a list or a slice.  For a
    list or slice selector it is the selector itself and normalising it again
    gives the same result; for an integer selector it is [slice(None)], which
    the normaliser itself rejects with a [TypeError]. *)
Theorem canonical_selector_renormalised (sel : PyVal) (n : Z)
    (canonical : PyVal) :
  _check_active_dims sel = Ok (n, canonical) ->
  canonical_selector canonical /\
  ((exists k, sel = VInt k) ->
   exists msg, _check_active_dims canonical = Raise (TypeError msg)) /\
  ((forall k, sel <> VInt k) ->
   canonical = sel /\ _check_active_dims canonical = Ok (n, canonical)).
Proof.
  intros Hcheck.
  destruct sel as [ |k|v|str|items|start stop step|arr];
    try discriminate Hcheck.
  - simpl in Hcheck. injection Hcheck as <- <-.
    split; [exact I|]. split.
    + intros _. eexists. reflexivity.
    + intros H. exfalso. exact (H k eq_refl).
  - simpl in Hcheck. injection Hcheck as <- <-.
    split; [exact I|]. split.
    + intros [k H]. discriminate H.
    + intros _. split; reflexivity.
  - assert (Hcanon : canonical = VSlice start stop step).
    { simpl in Hcheck.
      apply bind_Ok_inv in Hcheck. destruct Hcheck as [d [_ Hcheck]].
      apply bind_Ok_inv in Hcheck. destruct Hcheck as [q [_ Hcheck]].
      injection Hcheck as _ <-. reflexivity. }
    subst canonical.
    split; [exact I|]. split.
    + intros [k H]. discriminate H.
    + intros _. split; [reflexivity | exact Hcheck].
Qed.

Lemma canonical_selector_renormalised_witness :
  _check_active_dims (VInt 3) = Ok (3, VSlice None None None) /\
  (canonical_selector (VSlice None None None) /\
   ((exists k, VInt 3 = VInt k) ->
    exists msg,
      _check_active_dims (VSlice None None None) = Raise (TypeError msg)) /\
   ((forall k, VInt 3 <> VInt k) ->
    VSlice None None None = VInt 3 /\
    _check_active_dims (VSlice None None None) =
      Ok (3, VSlice None None None))).
Proof.
  exact (conj eq_refl
           (canonical_selector_renormalised (VInt 3) 3 (VSlice None None None)
              eq_refl)).
Defined.

(** X5. For [slice(a, b, s)] with [0 <= b < a] and [s > 0] the normaliser
    returns a negative [n_dims], while the slice selects no column of any
    input. *)
Theorem reversed_slice_has_negative_n_dims (a b s : Z) (D : nat) :
  0 <= b < a -> 0 < s ->
  exists n,
    _check_active_dims (VSlice (Some a) (Some b) (Some s)) =
      Ok (n, VSlice (Some a) (Some b) (Some s)) /\
    n < 0 /\
    slice_columns D (Some a) (Some b) (Some s) = Ok [].
Proof.
  intros Hba Hs. exists ((b - a) / s).
  split; [apply check_active_dims_slice; lia|].
  split; [apply Z.div_lt_upper_bound; lia|].
  unfold slice_columns, slice_indices, adjust_bound.
  destruct (s =? 0) eqn:E0; [apply Z.eqb_eq in E0; lia|].
  destruct (s <? 0) eqn:Eneg; [apply Z.ltb_lt in Eneg; lia|].
  destruct (a <? 0) eqn:Ea; [apply Z.ltb_lt in Ea; lia|].
  destruct (b <? 0) eqn:Eb; [apply Z.ltb_lt in Eb; lia|].
  simpl. unfold py_range, range_length.
  destruct (0 <? s) eqn:Epos; [|apply Z.ltb_ge in Epos; lia].
  destruct (Z.min a (Z.of_nat D) <? Z.min b (Z.of_nat D)) eqn:Elt;
    [apply Z.ltb_lt in Elt; lia|].
  reflexivity.
Qed.

Lemma reversed_slice_has_negative_n_dims_witness :
  0 <= 0 < 5 /\ 0 < 1 /\
  exists n,
    _check_active_dims (VSlice (Some 5) (Some 0) (Some 1)) =
      Ok (n, VSlice (Some 5) (Some 0) (Some 1)) /\
    n < 0 /\
    slice_columns 8 (Some 5) (Some 0) (Some 1) = Ok [].
Proof.
  assert (H1 : 0 <= 0 < 5) by lia.
  assert (H2 : 0 < 1) by lia.
  exact (conj H1 (conj H2 (reversed_slice_has_negative_n_dims 5 0 1 8 H1 H2))).
Defined.

(** ** Construction of combinations *)

Lemma flat_map_contribution_leaves (ks : list Kernel) :
  Forall is_leaf ks ->
  flat_map (contribution CombinationKernelClass) ks = ks.
Proof.
  induction 1 as [|k ks Hk _ IH]; simpl; [reflexivity|].
  rewrite (contribution_leaf k Hk), IH. reflexivity.
Qed.

(** X6. Operands that are kernels but not combinations become the children
    as they are: same kernels, same order, same number. *)
Theorem leaf_operands_become_children (ks : list Kernel) (operator : Operator) :
  Forall is_leaf ks ->
  CombinationKernel (map KernelObj ks) operator =
  Ok (KCombination combination_attrs ks operator).
Proof.
  intros Hleaves.
  rewrite CombinationKernel_kernels, (flat_map_contribution_leaves ks Hleaves).
  reflexivity.
Qed.

Lemma leaf_operands_become_children_witness :
  let ks := [constant_kernel 1; vector_constant; constant_kernel 2] in
  Forall is_leaf ks /\
  CombinationKernel (map KernelObj ks) op_jnp_prod =
  Ok (KCombination combination_attrs ks op_jnp_prod).
Proof.
  intros ks.
  assert (H : Forall is_leaf ks) by (repeat constructor).
  exact (conj H (leaf_operands_become_children ks op_jnp_prod H)).
Defined.

(** X7. Construction is idempotent on what the constructor builds from
    [kernels] and [operator] alone: when no operand has a combination among
    its own children, building a combination with the same operator from the
    result [k] alone, or from the children of [k], gives [k] back. *)
Theorem flattening_is_idempotent (kernels : list PyObj) (operator : Operator)
    (k : Kernel) :
  CombinationKernel kernels operator = Ok k ->
  (forall operand, In (KernelObj operand) kernels ->
                   children_are_leaves operand) ->
  CombinationKernel [KernelObj k] operator = Ok k /\
  CombinationKernel (map KernelObj (kernels_of k)) operator = Ok k.
Proof.
  intros Hk Hops.
  unfold CombinationKernel, CombinationKernel__post_init__ in Hk.
  apply bind_Ok_inv in Hk. destruct Hk as [out [Hloop Hk]].
  injection Hk as <-.
  split.
  - change [KernelObj (KCombination
                         (mkAttrs None default_active_dims default_name)
                         out operator)]
      with (map KernelObj [KCombination combination_attrs out operator]).
    rewrite CombinationKernel_kernels. simpl. rewrite app_nil_r. reflexivity.
  - simpl kernels_of.
    rewrite CombinationKernel_kernels, flat_map_contribution_leaves;
      [reflexivity|].
    apply Forall_forall. intros child Hin.
    destruct (flatten_loop_children _ _ _ _ _ Hloop Hin)
      as [[]|[operand [Hop Hc]]].
    unfold contribution in Hc.
    destruct (isinstance operand CombinationKernelClass) eqn:Hcls.
    + exact (Hops operand Hop child Hc).
    + destruct Hc as [<-|[]]. exact Hcls.
Qed.

Lemma flattening_is_idempotent_witness :
  let operands := [KernelObj product_2_5; KernelObj (constant_kernel 1)] in
  let k := KCombination combination_attrs
             [constant_kernel 2; constant_kernel 5; constant_kernel 1]
             op_jnp_sum in
  CombinationKernel operands op_jnp_sum = Ok k /\
  (forall operand, In (KernelObj operand) operands ->
                   children_are_leaves operand) /\
  (CombinationKernel [KernelObj k] op_jnp_sum = Ok k /\
   CombinationKernel (map KernelObj (kernels_of k)) op_jnp_sum = Ok k).
Proof.
  intros operands k.
  assert (Hops : forall operand, In (KernelObj operand) operands ->
                                 children_are_leaves operand).
  { intros operand [E|[E|[]]]; injection E as <-.
    - intros child [<-|[<-|[]]]; reflexivity.
    - intros child []. }
  exact (conj eq_refl (conj Hops
           (flattening_is_idempotent operands op_jnp_sum k eq_refl Hops))).
Defined.

(** X8. A constructible kernel is at most one level deep: no child of a
    constructible combination is a combination, of either reduction, so a
    child has no children of its own. *)
Theorem constructible_kernels_are_one_level_deep (k child : Kernel) :
  constructible k -> In child (kernels_of k) ->
  class_of child <> CombinationKernelClass /\ kernels_of child = [].
Proof.
  intros Hk Hin.
  pose proof (constructible_children_are_leaves k Hk child Hin) as Hleaf.
  destruct child; simpl in *; try discriminate Hleaf;
    split; try reflexivity; discriminate.
Qed.

Lemma constructible_kernels_are_one_level_deep_witness :
  let k := KCombination combination_attrs
             [constant_kernel 2; constant_kernel 5; constant_kernel 1]
             op_jnp_sum in
  constructible k /\ In (constant_kernel 5) (kernels_of k) /\
  (class_of (constant_kernel 5) <> CombinationKernelClass /\
   kernels_of (constant_kernel 5) = []).
Proof.
  intros k.
  assert (Hk : constructible k).
  { apply (constructible_Combination
             [KernelObj product_2_5; KernelObj (constant_kernel 1)] op_jnp_sum).
    - intros operand [E|[E|[]]]; injection E as <-.
      + apply (constructible_Combination
                 [KernelObj (constant_kernel 2); KernelObj (constant_kernel 5)]
                 op_jnp_prod).
        * intros operand [E|[E|[]]]; injection E as <-;
            apply constant_kernel_constructible.
        * reflexivity.
      + apply constant_kernel_constructible.
    - reflexivity. }
  assert (Hin : In (constant_kernel 5) (kernels_of k)) by (simpl; auto).
  exact (conj Hk (conj Hin
           (constructible_kernels_are_one_level_deep k (constant_kernel 5)
              Hk Hin))).
Defined.

(** X9. For a kernel whose fields are set by [AbstractKernel.__post_init__],
    as those of a [Constant] are, [n_dims] is assigned and [active_dims] is a
    list or a slice, never [None]: [slice_input] always indexes its input and
    never returns it through the [None] branch. *)
Theorem normalised_kernel_fields (self : Kernel) (sel : PyVal) :
  AbstractKernel__post_init__ sel = Ok (attrs_of self) ->
  (exists n, n_dims (attrs_of self) = Some n) /\
  canonical_selector (active_dims (attrs_of self)) /\
  active_dims (attrs_of self) <> VNone /\
  forall x, slice_input self x = getitem_last x (active_dims (attrs_of self)).
Proof.
  intros Hinit.
  destruct (post_init_Ok _ _ Hinit) as [n [canonical [Hcheck Hattrs]]].
  destruct (canonical_selector_shape sel n canonical Hcheck) as [Hcanon Hnone].
  rewrite Hattrs. simpl.
  split; [exists n; reflexivity|].
  split; [exact Hcanon|]. split; [exact Hnone|].
  intros x. unfold slice_input. rewrite Hattrs. simpl.
  destruct canonical; try contradiction; reflexivity.
Qed.

Lemma normalised_kernel_fields_witness :
  let self := constant_kernel 2 in
  AbstractKernel__post_init__ (VInt 1) = Ok (attrs_of self) /\
  ((exists n, n_dims (attrs_of self) = Some n) /\
   canonical_selector (active_dims (attrs_of self)) /\
   active_dims (attrs_of self) <> VNone /\
   forall x, slice_input self x =
             getitem_last x (active_dims (attrs_of self))).
Proof.
  intros self.
  exact (conj eq_refl (normalised_kernel_fields self (VInt 1) eq_refl)).
Defined.

(** ** The operators as an algebra of kernel objects *)

Lemma contribution_combination (attrs : Attrs) (ks : list Kernel)
    (operator : Operator) :
  contribution CombinationKernelClass (KCombination attrs ks operator) = ks.
Proof. reflexivity. Qed.

(** X10. Addition and multiplication of kernels never raise and are
    associative on the objects they build: [(A + B) + C] and [A + (B + C)]
    are the same kernel object, and so are [(A * B) * C] and [A * (B * C)],
    for all kernels [A], [B], [C]. *)
Theorem add_and_mul_are_associative (A B C : Kernel) :
  (exists AB BC K,
      __add__ A (KernelObj B) = Ok AB /\
      __add__ B (KernelObj C) = Ok BC /\
      __add__ AB (KernelObj C) = Ok K /\
      __add__ A (KernelObj BC) = Ok K) /\
  (exists AB BC K,
      __mul__ A (KernelObj B) = Ok AB /\
      __mul__ B (KernelObj C) = Ok BC /\
      __mul__ AB (KernelObj C) = Ok K /\
      __mul__ A (KernelObj BC) = Ok K).
Proof.
  split.
  - do 3 eexists.
    split; [apply add_kernels|]. split; [apply add_kernels|].
    rewrite !add_kernels, !contribution_combination.
    split; [reflexivity | rewrite app_assoc; reflexivity].
  - do 3 eexists.
    split; [apply mul_kernels|]. split; [apply mul_kernels|].
    rewrite !mul_kernels, !contribution_combination.
    split; [reflexivity | rewrite app_assoc; reflexivity].
Qed.

(** ** Evaluation of combinations, continued *)

Lemma comprehension_Forall2 {A B : Type} (f : A -> result B) (l : list A)
    (vs : list B) :
  Forall2 (fun e v => f e = Ok v) l vs -> comprehension f l = Ok vs.
Proof.
  induction 1 as [|e v l vs He _ IH]; simpl; [reflexivity|].
  rewrite He. simpl. rewrite IH. reflexivity.
Qed.

Lemma comprehension_In {A B : Type} (f : A -> result B) (l : list A)
    (vs : list B) (e : A) (v : B) :
  comprehension f l = Ok vs -> In e l -> f e = Ok v -> In v vs.
Proof.
  revert vs. induction l as [|e' l IH]; intros vs Hc Hin He; [destruct Hin|].
  simpl in Hc. apply bind_Ok_inv in Hc. destruct Hc as [v' [He' Hc]].
  apply bind_Ok_inv in Hc. destruct Hc as [vs' [Hrest Hc]].
  injection Hc as <-.
  destruct Hin as [->|Hin].
  - left. congruence.
  - right. exact (IH vs' Hrest Hin He).
Qed.

Lemma apply_operator_reduce (operator : Operator) (s : list nat)
    (values : list Q) :
  apply_operator operator (mkArray s values) =
  jnp_array (reduce operator values).
Proof. destruct operator; reflexivity. Qed.

Lemma jnp_stack_uniform (results : list Array) :
  results <> [] ->
  (forall r r', In r results -> In r' results -> shape r = shape r') ->
  exists s, jnp_stack results = Ok (mkArray s (List.concat (map data results))).
Proof.
  intros Hne Hsame.
  destruct results as [|a rest]; [contradiction|].
  unfold jnp_stack.
  assert (Hall : forallb (fun b => shape_eqb (shape b) (shape a)) rest = true).
  { apply forallb_forall. intros b Hb. apply shape_eqb_eq.
    apply Hsame; [right; exact Hb | left; reflexivity]. }
  rewrite Hall. eexists. reflexivity.
Qed.

(** X11. A combination whose children all evaluate, to arrays of one common
    shape, evaluates to the bound reduction over every entry of the
    children's results taken in child order, as a rank-0 array. *)
Theorem combination_call_reduces_children (attrs : Attrs)
    (kernels : list Kernel) (operator : Operator) (x y : Array)
    (results : list Array) :
  kernels <> [] ->
  Forall2 (fun k r => __call__ k x y = Ok r) kernels results ->
  (forall r r', In r results -> In r' results -> shape r = shape r') ->
  __call__ (KCombination attrs kernels operator) x y =
  Ok (jnp_array (reduce operator (List.concat (map data results)))).
Proof.
  intros Hne Hall Hsame.
  rewrite call_combination, (comprehension_Forall2 _ _ _ Hall). simpl.
  assert (Hres : results <> []).
  { intros ->. inversion Hall. subst. contradiction. }
  destruct (jnp_stack_uniform results Hres Hsame) as [s ->]. simpl.
  rewrite apply_operator_reduce. reflexivity.
Qed.

Lemma combination_call_reduces_children_witness :
  let kernels := [vector_constant; vector_constant] in
  let results := [mkArray [3%nat] [1; 2; 3]%Q; mkArray [3%nat] [1; 2; 3]%Q] in
  kernels <> [] /\
  Forall2 (fun k r => __call__ k origin origin = Ok r) kernels results /\
  (forall r r', In r results -> In r' results -> shape r = shape r') /\
  __call__ (KCombination combination_attrs kernels op_jnp_prod) origin origin =
  Ok (jnp_array (reduce op_jnp_prod (List.concat (map data results)))).
Proof.
  intros kernels results.
  assert (H1 : kernels <> []) by discriminate.
  assert (H2 : Forall2 (fun k r => __call__ k origin origin = Ok r)
                       kernels results)
    by (repeat constructor).
  assert (H3 : forall r r', In r results -> In r' results ->
                            shape r = shape r').
  { intros r r' [<-|[<-|[]]] [<-|[<-|[]]]; reflexivity. }
  exact (conj H1 (conj H2 (conj H3
           (combination_call_reduces_children combination_attrs kernels
              op_jnp_prod origin origin results H1 H2 H3)))).
Defined.

(** X12. For two kernels that are not combinations and evaluate to scalars
    [a] and [b], [A + B] evaluates to [a + b] and [A * B] to [a * b]. *)
Theorem add_and_mul_of_leaves (A B : Kernel) (x y : Array) (a b : Q) :
  is_leaf A -> is_leaf B ->
  __call__ A x y = Ok (jnp_array a) ->
  __call__ B x y = Ok (jnp_array b) ->
  (exists k v, __add__ A (KernelObj B) = Ok k /\
               __call__ k x y = Ok (jnp_array v) /\ (v == a + b)%Q) /\
  (exists k v, __mul__ A (KernelObj B) = Ok k /\
               __call__ k x y = Ok (jnp_array v) /\ (v == a * b)%Q).
Proof.
  intros HA HB Ha Hb.
  split.
  - exists (KCombination combination_attrs [A; B] op_jnp_sum), (Qsum [a; b]).
    split; [|split].
    + rewrite add_kernels, (contribution_leaf A HA), (contribution_leaf B HB).
      reflexivity.
    + rewrite call_combination. simpl. rewrite Ha, Hb. reflexivity.
    + unfold Qsum. simpl. ring.
  - exists (KCombination combination_attrs [A; B] op_jnp_prod), (Qprod [a; b]).
    split; [|split].
    + rewrite mul_kernels, (contribution_leaf A HA), (contribution_leaf B HB).
      reflexivity.
    + rewrite call_combination. simpl. rewrite Ha, Hb. reflexivity.
    + unfold Qprod. simpl. ring.
Qed.

Lemma add_and_mul_of_leaves_witness :
  let A := constant_kernel 2 in
  let B := KOther unit_attrs (fun _ _ => 7%Q) in
  is_leaf A /\ is_leaf B /\
  __call__ A origin origin = Ok (jnp_array 2) /\
  __call__ B origin origin = Ok (jnp_array 7) /\
  ((exists k v, __add__ A (KernelObj B) = Ok k /\
                __call__ k origin origin = Ok (jnp_array v) /\
                (v == 2 + 7)%Q) /\
   (exists k v, __mul__ A (KernelObj B) = Ok k /\
                __call__ k origin origin = Ok (jnp_array v) /\
                (v == 2 * 7)%Q)).
Proof.
  intros A B.
  exact (conj eq_refl (conj eq_refl (conj eq_refl (conj eq_refl
           (add_and_mul_of_leaves A B origin origin 2 7
              eq_refl eq_refl eq_refl eq_refl))))).
Defined.

(** ** Edge cases of combinations *)

(** X16. A combination may be built with no child at all, from no operand
    or from operands that are themselves childless combinations; the
    constructor accepts it, and calling the result raises the [ValueError] of
    [jnp.stack], whatever the operator and the inputs. *)
Theorem childless_combination_cannot_be_called (ks : list Kernel)
    (operator : Operator) (x y : Array) :
  (forall k, In k ks -> exists attrs op, k = KCombination attrs [] op) ->
  exists K msg,
    CombinationKernel (map KernelObj ks) operator = Ok K /\
    kernels_of K = [] /\
    __call__ K x y = Raise (ValueError msg).
Proof.
  intros Hempty.
  assert (Hflat : flat_map (contribution CombinationKernelClass) ks = []).
  { induction ks as [|k ks IH]; [reflexivity|]. simpl.
    destruct (Hempty k (or_introl eq_refl)) as [attrs [op ->]].
    rewrite contribution_combination. simpl.
    apply IH. intros k' Hk'. apply Hempty. right. exact Hk'. }
  exists (KCombination combination_attrs [] operator).
  eexists.
  rewrite CombinationKernel_kernels, Hflat.
  repeat split.
Qed.

Lemma childless_combination_cannot_be_called_witness :
  let ks := [KCombination combination_attrs [] op_jnp_sum;
             KCombination combination_attrs [] op_jnp_prod] in
  (forall k, In k ks -> exists attrs op, k = KCombination attrs [] op) /\
  exists K msg,
    CombinationKernel (map KernelObj ks) op_jnp_sum = Ok K /\
    kernels_of K = [] /\
    __call__ K origin origin = Raise (ValueError msg).
Proof.
  intros ks.
  assert (H : forall k, In k ks -> exists attrs op, k = KCombination attrs [] op).
  { intros k [<-|[<-|[]]]; do 2 eexists; reflexivity. }
  exact (conj H
           (childless_combination_cannot_be_called ks op_jnp_sum origin origin H)).
Defined.

(** X17. Children whose results differ in shape cannot be combined: if two
    children of a combination evaluate to arrays of different shapes, calling
    the combination raises. *)
Theorem combination_call_needs_one_shape (attrs : Attrs)
    (kernels : list Kernel) (operator : Operator) (x y : Array)
    (k1 k2 : Kernel) (r1 r2 : Array) :
  In k1 kernels -> In k2 kernels ->
  __call__ k1 x y = Ok r1 -> __call__ k2 x y = Ok r2 ->
  shape r1 <> shape r2 ->
  exists e, __call__ (KCombination attrs kernels operator) x y = Raise e.
Proof.
  intros Hin1 Hin2 Hr1 Hr2 Hshape.
  rewrite call_combination.
  destruct (comprehension (fun k => __call__ k x y) kernels) as [rs|e] eqn:Hc;
    simpl; [|eexists; reflexivity].
  pose proof (comprehension_In _ _ _ k1 r1 Hc Hin1 Hr1) as H1.
  pose proof (comprehension_In _ _ _ k2 r2 Hc Hin2 Hr2) as H2.
  pose proof (jnp_stack_cases rs) as Hstack.
  destruct (jnp_stack rs) as [a|e]; simpl; [|eexists; reflexivity].
  destruct Hstack as [_ [Hs _]].
  exfalso. apply Hshape.
  pose proof (Hs r1 H1) as E1. pose proof (Hs r2 H2) as E2. congruence.
Qed.

Lemma combination_call_needs_one_shape_witness :
  let kernels := [constant_kernel 2; vector_constant] in
  In (constant_kernel 2) kernels /\ In vector_constant kernels /\
  __call__ (constant_kernel 2) origin origin = Ok (jnp_array 2) /\
  __call__ vector_constant origin origin =
    Ok (mkArray [3%nat] [1; 2; 3]%Q) /\
  shape (jnp_array 2) <> shape (mkArray [3%nat] [1; 2; 3]%Q) /\
  exists e,
    __call__ (KCombination combination_attrs kernels op_jnp_sum) origin origin =
    Raise e.
Proof.
  intros kernels.
  assert (H1 : In (constant_kernel 2) kernels) by (simpl; auto).
  assert (H2 : In vector_constant kernels) by (simpl; auto).
  assert (H5 : shape (jnp_array 2) <> shape (mkArray [3%nat] [1; 2; 3]%Q))
    by discriminate.
  exact (conj H1 (conj H2 (conj eq_refl (conj eq_refl (conj H5
           (combination_call_needs_one_shape combination_attrs kernels
              op_jnp_sum origin origin _ _ _ _ H1 H2 eq_refl eq_refl H5)))))).
Defined.

Lemma clamp_index_one (D : nat) : (2 <= D)%nat -> clamp_index D 1 = 1.
Proof.
  intros HD. unfold clamp_index. simpl. lia.
Qed.

(** X18. A combination built by the constructor keeps the raw default
    selector [1], which [slice_input] applies as an index: on a vector with at
    least two entries it returns the entry at position 1 as a rank-0 array,
    not a selection of columns. *)
Theorem combination_slice_input_takes_entry_one (kernels : list PyObj)
    (operator : Operator) (k : Kernel) (values : list Q) :
  CombinationKernel kernels operator = Ok k ->
  (2 <= List.length values)%nat ->
  slice_input k (mkArray [List.length values] values) =
  Ok (jnp_array (nth 1 values 0%Q)).
Proof.
  intros Hk Hlen.
  unfold CombinationKernel in Hk. apply bind_Ok_inv in Hk.
  destruct Hk as [out [_ Hk]]. injection Hk as <-.
  unfold slice_input. simpl active_dims.
  change default_active_dims with (VInt 1). cbv iota.
  destruct values as [|v0 [|v1 rest]]; simpl in Hlen; try lia.
  unfold getitem_last. cbn [shape data rev app List.length].
  rewrite clamp_index_one by lia.
  reflexivity.
Qed.

Lemma combination_slice_input_takes_entry_one_witness :
  let operands := [KernelObj (constant_kernel 2); KernelObj (constant_kernel 3)] in
  let k := KCombination combination_attrs
             [constant_kernel 2; constant_kernel 3] op_jnp_sum in
  CombinationKernel operands op_jnp_sum = Ok k /\
  (2 <= List.length [10; 20; 30]%Q)%nat /\
  slice_input k (mkArray [List.length [10; 20; 30]%Q] [10; 20; 30]%Q) =
  Ok (jnp_array (nth 1 [10; 20; 30]%Q 0%Q)).
Proof.
  intros operands k.
  assert (H2 : (2 <= List.length [10; 20; 30]%Q)%nat) by (simpl; lia).
  exact (conj eq_refl (conj H2
           (combination_slice_input_takes_entry_one operands op_jnp_sum k
              [10; 20; 30]%Q eq_refl H2))).
Defined.

(** ** Integer scalars *)

(** X19. An integer on the right of [+] or [*] is taken as the selector of
    the constant that stands for it, whose slot keeps the default [0]: for a
    kernel [A] that is not a combination and evaluates to the scalar [a],
    [A + n] is built with a second child of [n_dims = n] that evaluates to
    [0], so [A + n] evaluates to [a] and [A * n] to [0], whatever the integer
    [n] is. *)
Theorem int_scalar_operand_is_read_as_selector (A : Kernel) (n : Z)
    (x y : Array) (a : Q) :
  is_leaf A ->
  __call__ A x y = Ok (jnp_array a) ->
  (exists k c v,
      __add__ A (Val (VInt n)) = Ok k /\
      kernels_of k = [A; c] /\
      n_dims (attrs_of c) = Some n /\
      __call__ c x y = Ok (jnp_array 0) /\
      __call__ k x y = Ok (jnp_array v) /\ (v == a)%Q) /\
  (exists k v,
      __mul__ A (Val (VInt n)) = Ok k /\
      __call__ k x y = Ok (jnp_array v) /\ (v == 0)%Q).
Proof.
  intros HA Ha.
  set (c := KConstant (mkAttrs (Some n) (VSlice None None None) default_name)
                      default_constant).
  assert (Hc : Constant (VInt n) default_constant = Ok c) by reflexivity.
  assert (Hbuild : forall op,
             CombinationKernel [KernelObj A; KernelObj c] op =
             Ok (KCombination combination_attrs [A; c] op)).
  { intros op.
    change [KernelObj A; KernelObj c] with (map KernelObj [A; c]).
    rewrite CombinationKernel_kernels. simpl.
    rewrite (contribution_leaf A HA). reflexivity. }
  split.
  - exists (KCombination combination_attrs [A; c] op_jnp_sum), c, (Qsum [a; 0%Q]).
    split; [unfold __add__; rewrite Hc; apply Hbuild|].
    split; [reflexivity|]. split; [reflexivity|]. split; [reflexivity|].
    split.
    + rewrite call_combination. simpl. rewrite Ha. reflexivity.
    + unfold Qsum. simpl. ring.
  - exists (KCombination combination_attrs [A; c] op_jnp_prod), (Qprod [a; 0%Q]).
    split; [unfold __mul__; rewrite Hc; apply Hbuild|].
    split.
    + rewrite call_combination. simpl. rewrite Ha. reflexivity.
    + unfold Qprod. simpl. ring.
Qed.

Lemma int_scalar_operand_is_read_as_selector_witness :
  let A := constant_kernel 2 in
  is_leaf A /\
  __call__ A origin origin = Ok (jnp_array 2) /\
  ((exists k c v,
       __add__ A (Val (VInt 3)) = Ok k /\
       kernels_of k = [A; c] /\
       n_dims (attrs_of c) = Some 3 /\
       __call__ c origin origin = Ok (jnp_array 0) /\
       __call__ k origin origin = Ok (jnp_array v) /\ (v == 2)%Q) /\
   (exists k v,
       __mul__ A (Val (VInt 3)) = Ok k /\
       __call__ k origin origin = Ok (jnp_array v) /\ (v == 0)%Q)).
Proof.
  intros A.
  exact (conj eq_refl (conj eq_refl
           (int_scalar_operand_is_read_as_selector A 3 origin origin 2
              eq_refl eq_refl))).
Defined.
